(** * maec helper scripts: a shallow embedding

    Two stand-alone Python scripts are embedded here.

    - [create_static.py] concatenates a nested template expression
      [SinkModule<AmplitudeScale<...<ConstModule>...>>sink;] and prints it.
    - [temp.py] draws two random 3x3 arrays, defines two literal integer
      arrays, and prints the two arrays and the two matrix products.

    Python [str] values are [string]s, Python [int]s are [Z], the
    integer arrays carry 64-bit elements with the wrap-around written out,
    and the effects of [temp.py] (the generator state and what has been
    printed) are threaded through a small state monad.  The product of the
    two random [float64] arrays is computed outside numpy, by the BLAS
    library it is linked with; its cells are a parameter of the model.
    The string operations of [create_static.py] are given twice: as total
    functions that describe every string the script can print, and with
    CPython's [OverflowError] in an error monad. *)

From Stdlib Require Import ZArith List Lia Bool Arith.
From Stdlib Require Import Strings.Ascii Strings.String.
From Stdlib Require Import Floats.PrimFloat.
Import ListNotations.

Local Open Scope string_scope.

(* ===================================================================== *)
(** * Python string primitives used by the scripts and their properties  *)
(* ===================================================================== *)

Module PyStr.

(** [s * n] on nat: [n] copies of [s] glued together. *)
Fixpoint repeat_nat (s : string) (n : nat) : string :=
  match n with
  | O => ""
  | S n' => s ++ repeat_nat s n'
  end.

(** The value of Python's [s * n] for an [int] [n], whenever it has one:
    the empty string when [n <= 0].  CPython raises [OverflowError] instead
    when [n] or the length of the result does not fit a machine index; that
    is [CPython.repeat] below, which returns this string in all other
    cases. *)
Definition mul (s : string) (n : Z) : string := repeat_nat s (Z.to_nat n).

(** [s.count(c)] for a one-character [c]. *)
Fixpoint count_char (c : ascii) (s : string) : nat :=
  match s with
  | EmptyString => 0
  | String x s' => (if Ascii.eqb x c then 1 else 0) + count_char c s'
  end.

(** [s.startswith(pat)]. *)
Fixpoint startswith (pat s : string) : bool :=
  match pat, s with
  | EmptyString, _ => true
  | String _ _, EmptyString => false
  | String p pat', String x s' => Ascii.eqb p x && startswith pat' s'
  end.

(** Drop the first [n] characters: the slice [s[n:]]. *)
Fixpoint drop (n : nat) (s : string) : string :=
  match n, s with
  | O, _ => s
  | S _, EmptyString => EmptyString
  | S n', String _ s' => drop n' s'
  end.

(** The slice [s[:n]]. *)
Fixpoint take (n : nat) (s : string) : string :=
  match n, s with
  | O, _ => EmptyString
  | S _, EmptyString => EmptyString
  | S n', String x s' => String x (take n' s')
  end.

(** [s.endswith(suf)]: [suf] is what remains after dropping
    [len(s) - len(suf)] characters. *)
Definition endswith (s suf : string) : bool :=
  (String.length suf <=? String.length s)%nat
  && String.eqb (drop (String.length s - String.length suf) s) suf.

(** All start positions at which [pat] occurs in [s], in increasing order,
    the first character of [s] being at position [i]. *)
Fixpoint occurrences_from (pat s : string) (i : nat) : list nat :=
  (if startswith pat s then [i] else [])
  ++ match s with
     | EmptyString => []
     | String _ s' => occurrences_from pat s' (S i)
     end.

Definition occurrences (pat s : string) : list nat := occurrences_from pat s 0.

(** [s.count(pat)] for a non-empty [pat]: occurrences that do not overlap,
    scanned from the left.  [skip] characters are still covered by the
    last match. *)
Fixpoint count_from (pat s : string) (skip : nat) : nat :=
  match s with
  | EmptyString => 0
  | String _ s' =>
      match skip with
      | S k => count_from pat s' k
      | O => if startswith pat s
             then S (count_from pat s' (String.length pat - 1))
             else count_from pat s' 0
      end
  end.

Definition count (pat s : string) : nat := count_from pat s 0.

(** [s.find(c)] for a one-character [c]: the first position, if any. *)
Fixpoint find (c : ascii) (s : string) : option nat :=
  match s with
  | EmptyString => None
  | String x s' =>
      if Ascii.eqb x c then Some 0
      else option_map S (find c s')
  end.

(** [s.rfind(c)] for a one-character [c]: the last position, if any. *)
Fixpoint rfind (c : ascii) (s : string) : option nat :=
  match s with
  | EmptyString => None
  | String x s' =>
      match rfind c s' with
      | Some i => Some (S i)
      | None => if Ascii.eqb x c then Some 0 else None
      end
  end.

(** The position of the [k]-th occurrence of the character [c] in [s],
    occurrences being numbered from 1. *)
Fixpoint kth_char (c : ascii) (k : nat) (s : string) : option nat :=
  match s with
  | EmptyString => None
  | String x s' =>
      if Ascii.eqb x c then
        match k with
        | 0 => None
        | 1 => Some 0
        | S k' => option_map S (kth_char c k' s')
        end
      else option_map S (kth_char c k s')
  end.

End PyStr.

(* ===================================================================== *)
(** * create_static.py                                                   *)
(* ===================================================================== *)

Module CreateStatic.

(** Number of middle modules in the chain. *)
Definition NUM : Z := 200.

(** Source in the static chain. *)
Definition SOURCE : string := "ConstModule".

(** Sink in the static chain. *)
Definition SINK : string := "SinkModule".

(** Middle module in the static chain. *)
Definition MID : string := "AmplitudeScale".

(** The value of [init] after the four assignments of the script, with the
    repetition count as a parameter. *)
Definition init (num : Z) : string :=
  let init := SINK ++ "<" in
  let init := init ++ PyStr.mul (MID ++ "<") num in
  let init := init ++ SOURCE in
  let init := init ++ PyStr.mul ">" (num + 1) in
  init.

(** The argument of the final [print]. *)
Definition output (num : Z) : string := init num ++ "sink;".

(** What the script writes to standard output: the line and its newline. *)
Definition stdout : string := output NUM ++ String (ascii_of_nat 10) "".

(** The chain read as two halves: everything up to and including the
    source ... *)
Definition opening (num : Z) : string :=
  (SINK ++ "<") ++ (PyStr.mul (MID ++ "<") num ++ SOURCE).

(** ... and what follows it. *)
Definition closing (num : Z) : string := PyStr.mul ">" (num + 1) ++ "sink;".

End CreateStatic.

(* ===================================================================== *)
(** * The same string operations with CPython's size checks              *)
(* ===================================================================== *)

Module CPython.

(** The largest and smallest machine index of a 64-bit build. *)
Definition PY_SSIZE_T_MAX : Z := 2 ^ 63 - 1.
Definition PY_SSIZE_T_MIN : Z := - 2 ^ 63.

(** The exception the size checks raise.  [MemoryError], raised when the
    allocator refuses a request, depends on the machine and is not
    modelled: a result [inr s] reads "[s], memory permitting". *)
Inductive exn : Type := OverflowError.

(** A value or a raised exception. *)
Definition result (X : Type) : Type := (exn + X)%type.

Definition bind {X Y : Type} (c : result X) (k : X -> result Y) : result Y :=
  match c with
  | inl e => inl e
  | inr x => k x
  end.

(** [PyNumber_AsSsize_t(n, PyExc_OverflowError)]: the repetition count as a
    machine index. *)
Definition as_ssize_t (n : Z) : result Z :=
  if ((PY_SSIZE_T_MIN <=? n) && (n <=? PY_SSIZE_T_MAX))%Z then inr n
  else inl OverflowError.

(** [s * n]: the count must be an index; a count below 1 gives the empty
    string; otherwise the length of the result must be an index too. *)
Definition repeat (s : string) (n : Z) : result string :=
  bind (as_ssize_t n) (fun count =>
    if (count <? 1)%Z then inr ""
    else if (Z.of_nat (String.length s) >? PY_SSIZE_T_MAX / count)%Z
         then inl OverflowError
         else inr (PyStr.repeat_nat s (Z.to_nat count))).

(** [s + t] and [s += t]: the length of the result must be an index. *)
Definition concat (s t : string) : result string :=
  if (Z.of_nat (String.length s)
      >? PY_SSIZE_T_MAX - Z.of_nat (String.length t))%Z
  then inl OverflowError
  else inr (s ++ t).

End CPython.

Module CreateStaticChecked.
Import CreateStatic CPython.

Notation "x <- c ;; k" := (bind c (fun x => k))
  (at level 61, c at next level, right associativity).

(** The script with repetition count [num], statement by statement: the
    string handed to [print], or the exception that ends the run before
    anything is printed. *)
Definition script (num : Z) : result string :=
  let init := SINK ++ "<" in
  mids <- repeat (MID ++ "<") num ;;
  init <- concat init mids ;;
  init <- concat init SOURCE ;;
  closers <- repeat ">" (num + 1) ;;
  init <- concat init closers ;;
  concat init "sink;".

End CreateStaticChecked.

(* ===================================================================== *)
(** * The part of numpy that temp.py uses                                *)
(* ===================================================================== *)

Module Numpy.

(** An element type of an array: what [+] and [*] mean on it and the value
    an accumulator starts from. *)
Class DType (T : Type) : Type := {
  zero : T;
  add : T -> T -> T;
  mul : T -> T -> T
}.

(** Two's-complement reduction to 64 bits. *)
Definition wrap64 (x : Z) : Z := (x + 2 ^ 63) mod 2 ^ 64 - 2 ^ 63.

(** [int64], the element type [np.array] picks for a list of Python ints:
    every result of [+] and [*] is reduced to 64 bits. *)
#[export] Instance int64 : DType Z := {
  zero := 0%Z;
  add x y := wrap64 (x + y);
  mul x y := wrap64 (x * y)
}.

(** Python's own unbounded [int] arithmetic, to compare [int64] with. *)
Definition exact_int : DType Z := {|
  zero := 0%Z;
  add := Z.add;
  mul := Z.mul
|}.

(** A two-dimensional array, row-major. *)
Definition ndarray (T : Type) : Type := list (list T).

Section Arrays.
Context {T : Type} {dtype : DType T}.

(** [M[i, j]]; the claims only read cells inside the shape. *)
Definition cell (M : ndarray T) (i j : nat) : T := nth j (nth i M []) zero.

(** [M.shape == (rows, cols)]. *)
Definition shape (M : ndarray T) (rows cols : nat) : Prop :=
  List.length M = rows /\ Forall (fun row => List.length row = cols) M.

(** Number of columns, read off the first row. *)
Definition ncols (M : ndarray T) : nat := List.length (hd [] M).

(** [M[:, j]]. *)
Definition column (M : ndarray T) (j : nat) : list T :=
  map (fun row => nth j row zero) M.

(** The inner loop of the product, run from accumulator [acc]: one
    multiply-add per index. *)
Definition dot_from (acc : T) (u v : list T) : T :=
  fold_left (fun acc xy => add acc (mul (fst xy) (snd xy))) (combine u v) acc.

(** The inner product: the loop with the accumulator starting at [zero]. *)
Definition dot (u v : list T) : T := dot_from zero u v.

(** [L @ R] for two-dimensional integer operands of shapes [m x n] and
    [n x p] with [n > 0]: one [dot] of a row of [L] with a column of [R]
    for every cell of the result.  This is the loop numpy runs itself for
    integer element types.  (On other shapes numpy raises [ValueError], and
    a list of rows cannot carry the shape of an array without rows or
    columns; the script multiplies 3x3 arrays only.) *)
Definition matmul (L R : ndarray T) : ndarray T :=
  map (fun row => map (fun j => dot row (column R j)) (seq 0 (ncols R))) L.

(** [L * R], the element-wise product (what [@] is not). *)
Definition multiply (L R : ndarray T) : ndarray T :=
  map (fun rows => map (fun xy => mul (fst xy) (snd xy))
                       (combine (fst rows) (snd rows)))
      (combine L R).

(** [c * M] for a scalar [c]. *)
Definition scale (c : T) (M : ndarray T) : ndarray T := map (map (mul c)) M.

(** The sum of [f k] over the indices [ks], added to [acc] in list order. *)
Definition sum_from (acc : T) (ks : list nat) (f : nat -> T) : T :=
  fold_left (fun acc k => add acc (f k)) ks acc.

(** The sum over [k < n] of [f k], accumulated in index order. *)
Fixpoint sum_upto (n : nat) (f : nat -> T) : T :=
  match n with
  | O => zero
  | S n' => add (sum_upto n' f) (f n')
  end.

End Arrays.

(** [L @ R] on [float64] arrays is not computed by numpy's own loop: numpy
    hands it to the BLAS library it is linked with, and the order and the
    rounding of the multiply-adds inside a cell are that library's choice,
    so the last place of a cell differs between builds.  The value of each
    cell is therefore a parameter: [product_cell L R i j] is what the
    library leaves in row [i], column [j] of the product of [L] and [R]. *)
Class Float64Product : Type := {
  product_cell :
    ndarray PrimFloat.float -> ndarray PrimFloat.float ->
    nat -> nat -> PrimFloat.float
}.

(** What numpy itself fixes of [L @ R] on [float64] arrays: one row per row
    of [L], one column per column of [R]. *)
Definition matmul_f64 {blas : Float64Product}
    (L R : ndarray PrimFloat.float) : ndarray PrimFloat.float :=
  map (fun i => map (fun j => product_cell L R i j) (seq 0 (ncols R)))
      (seq 0 (List.length L)).

(** The generator behind [np.random]: a state and a step that returns the
    next sample of the uniform distribution on [0, 1) . *)
Class BitGenerator (G : Type) : Type := {
  random_sample : G -> PrimFloat.float * G
}.

Section Random.
Context {G : Type} {gen : BitGenerator G}.

(** [n] consecutive samples. *)
Fixpoint samples (n : nat) (g : G) : list PrimFloat.float * G :=
  match n with
  | O => ([], g)
  | S n' =>
      let (x, g1) := random_sample g in
      let (xs, g2) := samples n' g1 in
      (x :: xs, g2)
  end.

(** [np.random.rand(rows, cols)] on generator state [g]: the array, filled
    row by row, and the state left behind. *)
Fixpoint rand (rows cols : nat) (g : G) : ndarray PrimFloat.float * G :=
  match rows with
  | O => ([], g)
  | S rows' =>
      let (r, g1) := samples cols g in
      let (rs, g2) := rand rows' cols g1 in
      (r :: rs, g2)
  end.

End Random.

End Numpy.

(* ===================================================================== *)
(** * temp.py                                                            *)
(* ===================================================================== *)

Module Temp.
Import Numpy.

(** What [print] can be handed in this script. *)
Inductive printed : Type :=
| PFloat (M : ndarray PrimFloat.float)
| PInt (M : ndarray Z).

(** The module-level names the script binds. *)
Record globals : Type := {
  var_A : ndarray PrimFloat.float;
  var_B : ndarray PrimFloat.float;
  var_a : ndarray Z;
  var_b : ndarray Z
}.

Section Script.
Context {G : Type} {gen : BitGenerator G} {blas : Float64Product}.

(** The world the script runs in: the generator state of [np.random] and
    the arrays written to standard output so far, oldest first. *)
Record world : Type := {
  rng : G;
  stdout : list printed
}.

(** Computations that read and update the world. *)
Definition M (X : Type) : Type := world -> X * world.

Definition ret {X} (x : X) : M X := fun w => (x, w).

Definition bind {X Y} (c : M X) (k : X -> M Y) : M Y :=
  fun w => let (x, w') := c w in k x w'.

Notation "x <- c ;; k" := (bind c (fun x => k))
  (at level 61, c at next level, right associativity).
Notation "c ;; k" := (bind c (fun _ => k))
  (at level 61, right associativity).

(** [np.random.rand(rows, cols)]. *)
Definition np_random_rand (rows cols : nat) : M (ndarray PrimFloat.float) :=
  fun w =>
    let (X, g) := rand rows cols (rng w) in
    (X, {| rng := g; stdout := stdout w |}).

(** [print(x)]. *)
Definition print (x : printed) : M unit :=
  fun w => (tt, {| rng := rng w; stdout := stdout w ++ [x] |}).

(** The first literal array. *)
Definition a : ndarray Z :=
  [ [1; 2; 3];
    [4; 5; 6];
    [7; 8; 9] ]%Z.

(** The second literal array. *)
Definition b : ndarray Z :=
  [ [10; 20; 30];
    [40; 50; 60];
    [70; 80; 90] ]%Z.

(** The script, statement by statement. *)
Definition temp : M globals :=
  A <- np_random_rand 3 3 ;;
  B <- np_random_rand 3 3 ;;
  let a := a in
  let b := b in
  print (PFloat A) ;;
  print (PFloat B) ;;
  print (PFloat (matmul_f64 A B)) ;;
  print (PInt (matmul a b)) ;;
  ret {| var_A := A; var_B := B; var_a := a; var_b := b |}.

(** One execution: a fresh process on generator state [g], nothing printed
    yet. *)
Definition run (g : G) : globals * world :=
  temp {| rng := g; stdout := [] |}.

End Script.

End Temp.

(* ===================================================================== *)
(** * Readings of the two scripts' results                               *)
(* ===================================================================== *)

(** The chain as a template expression. *)
Module Nesting.
Import CreateStatic.

(** [k] middle modules wrapped around the source, each with its own pair
    of brackets: [AmplitudeScale<AmplitudeScale<...ConstModule...>>]. *)
Fixpoint nest (k : nat) : string :=
  match k with
  | O => SOURCE
  | S k' => MID ++ "<" ++ nest k' ++ ">"
  end.

(** A left-to-right bracket scan: [depth] is the number of [<] still open,
    [peak] the largest depth seen so far.  A [>] with nothing open stops
    the scan with [None]. *)
Fixpoint scan (depth peak : nat) (s : string) : option (nat * nat) :=
  match s with
  | EmptyString => Some (depth, peak)
  | String c s' =>
      if Ascii.eqb c "<" then scan (S depth) (Nat.max peak (S depth)) s'
      else if Ascii.eqb c ">" then
        match depth with
        | O => None
        | S d => scan d peak s'
        end
      else scan depth peak s'
  end.

End Nesting.

(** The printed arrays of [temp.py] and the size of integer cells. *)
Module ArrayViews.
Import Numpy Temp.

(** [x.shape == (rows, cols)] for a printed array of either element type. *)
Definition printed_shape (rows cols : nat) (x : printed) : Prop :=
  match x with
  | PFloat M => shape M rows cols
  | PInt M => shape M rows cols
  end.

(** Every cell of [M] is at most [bound] in absolute value. *)
Definition cells_within (bound : Z) (M : ndarray Z) : Prop :=
  Forall (Forall (fun x => (Z.abs x <= bound)%Z)) M.

End ArrayViews.

(* ===================================================================== *)
(** * Facts about the string primitives                                  *)
(* ===================================================================== *)

Module PyStrFacts.
Import PyStr.

Lemma append_nil_r (s : string) : s ++ "" = s.
Proof. induction s as [|x s IH]; simpl; [reflexivity | now rewrite IH]. Qed.

Lemma append_assoc (s t u : string) : (s ++ t) ++ u = s ++ (t ++ u).
Proof. induction s as [|x s IH]; simpl; [reflexivity | now rewrite IH]. Qed.

Lemma length_append (s t : string) :
  String.length (s ++ t) = String.length s + String.length t.
Proof. induction s as [|x s IH]; simpl; [reflexivity | now rewrite IH]. Qed.

Lemma length_repeat_nat (s : string) (n : nat) :
  String.length (repeat_nat s n) = n * String.length s.
Proof.
  induction n as [|n IH]; simpl; [reflexivity|].
  now rewrite length_append, IH.
Qed.

(** ** Counting one character *)

Lemma count_char_append (c : ascii) (s t : string) :
  count_char c (s ++ t) = count_char c s + count_char c t.
Proof.
  induction s as [|x s IH]; simpl; [reflexivity|].
  rewrite IH. apply Nat.add_assoc.
Qed.

Lemma count_char_repeat_nat (c : ascii) (s : string) (n : nat) :
  count_char c (repeat_nat s n) = n * count_char c s.
Proof.
  induction n as [|n IH]; simpl; [reflexivity|].
  now rewrite count_char_append, IH.
Qed.

Lemma count_char_mul (c : ascii) (s : string) (n : Z) :
  (0 <= n)%Z ->
  Z.of_nat (count_char c (mul s n)) = (n * Z.of_nat (count_char c s))%Z.
Proof.
  intros Hn. unfold mul. rewrite count_char_repeat_nat. lia.
Qed.

(** A character that is counted zero times is at no position. *)
Lemma count_char_zero_get (c : ascii) (s : string) (i : nat) :
  count_char c s = 0 -> String.get i s <> Some c.
Proof.
  revert i. induction s as [|x s IH]; intros i Hc; simpl in *.
  - discriminate.
  - destruct (Ascii.eqb_spec x c) as [->|Hx]; [discriminate|].
    destruct i as [|i].
    + intros E. injection E as E. contradiction.
    + apply IH. exact Hc.
Qed.

(** ** Slices and suffixes *)

Lemma drop_append_length (s t : string) :
  drop (String.length s) (s ++ t) = t.
Proof. induction s as [|x s IH]; simpl; [now destruct t | exact IH]. Qed.

Lemma endswith_append (s suf : string) : endswith (s ++ suf) suf = true.
Proof.
  unfold endswith. rewrite length_append.
  replace (String.length s + String.length suf - String.length suf)
    with (String.length s) by lia.
  rewrite drop_append_length, String.eqb_refl.
  rewrite andb_true_r. apply Nat.leb_le. lia.
Qed.

(** ** Positions in a concatenation *)

Lemma get_append_left (s t : string) (i : nat) :
  i < String.length s -> String.get i (s ++ t) = String.get i s.
Proof.
  revert i. induction s as [|x s IH]; intros i Hi; simpl in *; [lia|].
  destruct i as [|i]; [reflexivity|]. apply IH. lia.
Qed.

Lemma get_append_right (s t : string) (i : nat) :
  String.length s <= i ->
  String.get i (s ++ t) = String.get (i - String.length s) t.
Proof.
  revert i. induction s as [|x s IH]; intros i Hi; simpl in *.
  - now rewrite Nat.sub_0_r.
  - destruct i as [|i]; [lia|]. apply IH. lia.
Qed.

(** When [c1] does not occur in the right part and [c2] does not occur in
    the left part, every [c1] of the whole stands before every [c2]. *)
Lemma separated_append (c1 c2 : ascii) (l r : string) (i j : nat) :
  count_char c1 r = 0 -> count_char c2 l = 0 ->
  String.get i (l ++ r) = Some c1 -> String.get j (l ++ r) = Some c2 ->
  i < j.
Proof.
  intros Hr Hl Hi Hj.
  destruct (Nat.lt_ge_cases i (String.length l)) as [Hil|Hil].
  - destruct (Nat.lt_ge_cases j (String.length l)) as [Hjl|Hjl]; [|lia].
    rewrite get_append_left in Hj by exact Hjl.
    now apply count_char_zero_get in Hj.
  - rewrite get_append_right in Hi by exact Hil.
    now apply count_char_zero_get in Hi.
Qed.

(** ** First and last position of a character *)

Lemma find_absent (c : ascii) (s : string) :
  count_char c s = 0 -> find c s = None.
Proof.
  induction s as [|x s IH]; simpl; [reflexivity|].
  destruct (Ascii.eqb x c); [discriminate|].
  intros Hc. now rewrite IH.
Qed.

Lemma rfind_absent (c : ascii) (s : string) :
  count_char c s = 0 -> rfind c s = None.
Proof.
  induction s as [|x s IH]; simpl; [reflexivity|].
  destruct (Ascii.eqb x c); [discriminate|].
  intros Hc. now rewrite IH.
Qed.

Lemma find_present (c : ascii) (s : string) :
  0 < count_char c s -> exists p, find c s = Some p.
Proof.
  induction s as [|x s IH]; simpl; [lia|].
  destruct (Ascii.eqb x c); [now exists 0|].
  intros Hc. destruct (IH Hc) as [p Hp]. exists (S p). now rewrite Hp.
Qed.

Lemma rfind_bound (c : ascii) (s : string) (p : nat) :
  rfind c s = Some p -> p < String.length s.
Proof.
  revert p. induction s as [|x s IH]; intros p; simpl; [discriminate|].
  destruct (rfind c s) as [q|].
  - intros E. injection E as <-. specialize (IH q eq_refl). lia.
  - destruct (Ascii.eqb x c); [|discriminate].
    intros E. injection E as <-. lia.
Qed.

Lemma rfind_present (c : ascii) (s : string) :
  0 < count_char c s -> exists p, rfind c s = Some p.
Proof.
  induction s as [|x s IH]; simpl; [lia|].
  destruct (rfind c s) as [q|]; [now exists (S q)|].
  destruct (Ascii.eqb x c); [now exists 0|].
  intros Hc. destruct (IH Hc) as [p Hp]. discriminate.
Qed.

Lemma find_append (c : ascii) (s t : string) :
  find c (s ++ t) =
  match find c s with
  | Some p => Some p
  | None => option_map (Nat.add (String.length s)) (find c t)
  end.
Proof.
  induction s as [|x s IH]; simpl.
  - now destruct (find c t).
  - destruct (Ascii.eqb x c); [reflexivity|].
    rewrite IH. destruct (find c s); [reflexivity|].
    now destruct (find c t).
Qed.

Lemma rfind_append (c : ascii) (s t : string) :
  rfind c (s ++ t) =
  match rfind c t with
  | Some p => Some (String.length s + p)
  | None => rfind c s
  end.
Proof.
  induction s as [|x s IH]; simpl.
  - now destruct (rfind c t).
  - rewrite IH. now destruct (rfind c t).
Qed.

(** The last [c1] of [l ++ r] is in [l] and the first [c2] is in [r], under
    the hypotheses of [separated_append] when both characters occur. *)
Lemma last_before_first (c1 c2 : ascii) (l r : string) :
  count_char c1 r = 0 -> count_char c2 l = 0 ->
  0 < count_char c1 l -> 0 < count_char c2 r ->
  exists p q,
    rfind c1 (l ++ r) = Some p /\ find c2 (l ++ r) = Some q /\ p < q.
Proof.
  intros Hr Hl Hl1 Hr2.
  destruct (rfind_present c1 l Hl1) as [p Hp].
  destruct (find_present c2 r Hr2) as [q Hq].
  exists p, (String.length l + q).
  rewrite rfind_append, (rfind_absent c1 r Hr), Hp.
  rewrite find_append, (find_absent c2 l Hl), Hq. simpl.
  apply rfind_bound in Hp. repeat split. lia.
Qed.

End PyStrFacts.

(* ===================================================================== *)
(** * Occurrences of a word in a concatenation                           *)
(* ===================================================================== *)

Module OccurrenceFacts.
Import PyStr PyStrFacts.

Section FirstCharacter.
Variable p : ascii.
Variable pat : string.

(** A word cannot start inside a stretch that lacks its first character. *)
Lemma startswith_other (x : ascii) (s : string) :
  Ascii.eqb x p = false -> startswith (String p pat) (String x s) = false.
Proof.
  intros Hx. simpl. rewrite Ascii.eqb_sym, Hx. reflexivity.
Qed.

Lemma occurrences_from_skip (s rest : string) (i : nat) :
  count_char p s = 0 ->
  occurrences_from (String p pat) (s ++ rest) i =
  occurrences_from (String p pat) rest (String.length s + i).
Proof.
  revert i. induction s as [|x s IH]; intros i Hc; [reflexivity|].
  simpl in Hc. destruct (Ascii.eqb x p) eqn:Hx; [discriminate|].
  change (String x s ++ rest) with (String x (s ++ rest)).
  cbn [occurrences_from]. rewrite (startswith_other _ _ Hx), IH by exact Hc.
  simpl. f_equal. lia.
Qed.

Lemma occurrences_from_absent (s : string) (i : nat) :
  count_char p s = 0 -> occurrences_from (String p pat) s i = [].
Proof.
  intros Hc. rewrite <- (append_nil_r s), occurrences_from_skip by exact Hc.
  reflexivity.
Qed.

Lemma count_from_skip (s rest : string) :
  count_char p s = 0 ->
  count_from (String p pat) (s ++ rest) 0 = count_from (String p pat) rest 0.
Proof.
  induction s as [|x s IH]; intros Hc; [reflexivity|].
  simpl in Hc. destruct (Ascii.eqb x p) eqn:Hx; [discriminate|].
  change (String x s ++ rest) with (String x (s ++ rest)).
  cbn [count_from]. rewrite (startswith_other _ _ Hx). apply IH, Hc.
Qed.

Lemma count_from_absent (s : string) :
  count_char p s = 0 -> count_from (String p pat) s 0 = 0.
Proof.
  intros Hc. rewrite <- (append_nil_r s), count_from_skip by exact Hc.
  reflexivity.
Qed.

End FirstCharacter.

End OccurrenceFacts.

(* ===================================================================== *)
(** * create_static.py: the printed chain                                *)
(* ===================================================================== *)

Module CreateStaticSpec.
Import PyStr PyStrFacts OccurrenceFacts CreateStatic.

Local Open Scope Z_scope.

Lemma output_split (num : Z) : output num = (opening num ++ closing num)%string.
Proof.
  unfold output, init, opening, closing.
  now rewrite !append_assoc.
Qed.

Lemma count_char_opening (c : ascii) (num : Z) :
  0 <= num ->
  Z.of_nat (count_char c (opening num)) =
  Z.of_nat (count_char c (SINK ++ "<"))
  + num * Z.of_nat (count_char c (MID ++ "<"))
  + Z.of_nat (count_char c SOURCE).
Proof.
  intros Hn. unfold opening.
  rewrite !count_char_append, !Nat2Z.inj_add, count_char_mul by exact Hn.
  rewrite !count_char_append, !Nat2Z.inj_add. lia.
Qed.

Lemma count_char_closing (c : ascii) (num : Z) :
  0 <= num ->
  Z.of_nat (count_char c (closing num)) =
  (num + 1) * Z.of_nat (count_char c ">") + Z.of_nat (count_char c "sink;").
Proof.
  intros Hn. unfold closing.
  rewrite count_char_append, Nat2Z.inj_add, count_char_mul by lia.
  reflexivity.
Qed.

(** Evaluate the character counts of the constant pieces. *)
Ltac eval_counts :=
  repeat match goal with
         | |- context [count_char ?c ?s] =>
             let v := eval vm_compute in (count_char c s) in
             change (count_char c s) with v
         end.

Lemma lt_in_opening (num : Z) :
  0 <= num -> Z.of_nat (count_char "<" (opening num)) = num + 1.
Proof. intros Hn. rewrite count_char_opening by exact Hn. eval_counts. lia. Qed.

Lemma gt_in_opening (num : Z) :
  0 <= num -> count_char ">" (opening num) = 0%nat.
Proof.
  intros Hn. apply Nat2Z.inj.
  rewrite count_char_opening by exact Hn. eval_counts. lia.
Qed.

Lemma lt_in_closing (num : Z) :
  0 <= num -> count_char "<" (closing num) = 0%nat.
Proof.
  intros Hn. apply Nat2Z.inj.
  rewrite count_char_closing by exact Hn. eval_counts. lia.
Qed.

Lemma gt_in_closing (num : Z) :
  0 <= num -> Z.of_nat (count_char ">" (closing num)) = num + 1.
Proof. intros Hn. rewrite count_char_closing by exact Hn. eval_counts. lia. Qed.

(** C1: for every repetition count [n >= 0] the printed string has exactly
    [n + 1] characters [<], exactly [n + 1] characters [>], and ends with
    [sink;]. *)
Theorem output_brackets (n : Z) :
  0 <= n ->
  Z.of_nat (count_char "<" (output n)) = n + 1
  /\ Z.of_nat (count_char ">" (output n)) = n + 1
  /\ endswith (output n) "sink;" = true.
Proof.
  intros Hn. repeat split.
  - rewrite output_split, count_char_append, Nat2Z.inj_add.
    rewrite lt_in_opening, lt_in_closing by exact Hn. lia.
  - rewrite output_split, count_char_append, Nat2Z.inj_add.
    rewrite gt_in_opening, gt_in_closing by exact Hn. lia.
  - unfold output. apply endswith_append.
Qed.

Lemma output_brackets_witness :
  0 <= NUM
  /\ (Z.of_nat (count_char "<" (output NUM)) = NUM + 1
      /\ Z.of_nat (count_char ">" (output NUM)) = NUM + 1
      /\ endswith (output NUM) "sink;" = true).
Proof.
  split; [unfold NUM; lia | apply (output_brackets NUM); unfold NUM; lia].
Defined.

(** Two middle modules, spelled out. *)
Example output_two :
  output 2 =
  "SinkModule<AmplitudeScale<AmplitudeScale<ConstModule>>>sink;"%string.
Proof. reflexivity. Qed.

(** Below zero both repetitions are empty and the one [<] of the sink is
    left unclosed, which is why the statements above ask for [0 <= n]. *)
Example output_minus_one : output (-1) = "SinkModule<ConstModulesink;"%string.
Proof. reflexivity. Qed.

(** C4: with a repetition count of 0 the printed string is
    [SinkModule<ConstModule>sink;]. *)
Theorem output_zero : output 0 = "SinkModule<ConstModule>sink;"%string.
Proof. reflexivity. Qed.

(** C2: with the script's [NUM = 200] the printed string has exactly 201
    characters [<] and 201 characters [>]; [ConstModule] occurs at exactly
    one position, and the character just before that position is the
    201st [<] of the string. *)
Theorem output_default :
  count_char "<" (output NUM) = 201%nat
  /\ count_char ">" (output NUM) = 201%nat
  /\ count SOURCE (output NUM) = 1%nat
  /\ exists p : nat,
       occurrences SOURCE (output NUM) = [S p]
       /\ kth_char "<" 201 (output NUM) = Some p.
Proof.
  split; [vm_compute; reflexivity|].
  split; [vm_compute; reflexivity|].
  split; [vm_compute; reflexivity|].
  exists 3010%nat. split; vm_compute; reflexivity.
Qed.

(** ** Occurrences of the middle module *)

(** One copy of [MID<] in front of [rest] adds one occurrence of [MID], at
    its first character, and nothing else. *)
Lemma occurrences_mid_step (rest : string) (i : nat) :
  occurrences_from MID ((MID ++ "<") ++ rest) i =
  i :: occurrences_from MID rest (15 + i).
Proof. reflexivity. Qed.

Lemma count_mid_step (rest : string) :
  count_from MID ((MID ++ "<") ++ rest) 0 = S (count_from MID rest 0).
Proof. reflexivity. Qed.

Lemma occurrences_mid_repeat (k : nat) (rest : string) (i : nat) :
  List.length (occurrences_from MID (repeat_nat (MID ++ "<") k ++ rest) i) =
  (k + List.length (occurrences_from MID rest (15 * k + i)))%nat.
Proof.
  revert i. induction k as [|k IH]; intros i; [reflexivity|].
  cbn [repeat_nat]. rewrite append_assoc, occurrences_mid_step.
  cbn [List.length]. rewrite IH.
  replace (15 * k + (15 + i))%nat with (15 * S k + i)%nat by lia.
  reflexivity.
Qed.

Lemma count_mid_repeat (k : nat) (rest : string) :
  count_from MID (repeat_nat (MID ++ "<") k ++ rest) 0 =
  (k + count_from MID rest 0)%nat.
Proof.
  induction k as [|k IH]; [reflexivity|].
  cbn [repeat_nat]. rewrite append_assoc, count_mid_step, IH. reflexivity.
Qed.

(** Nothing after the middle modules contains the first letter of [MID]. *)
Lemma no_mid_after (num : Z) :
  0 <= num -> count_char "A" (SOURCE ++ closing num) = 0%nat.
Proof.
  intros Hn. apply Nat2Z.inj.
  rewrite count_char_append, Nat2Z.inj_add, count_char_closing by exact Hn.
  eval_counts. lia.
Qed.

Lemma output_around_mid (num : Z) :
  output num =
  ((SINK ++ "<") ++ (mul (MID ++ "<") num ++ (SOURCE ++ closing num)))%string.
Proof.
  unfold output, init, closing. now rewrite !append_assoc.
Qed.

(** C8: for every repetition count [n >= 0] the word [AmplitudeScale]
    occurs exactly [n] times in the printed string, both as the number of
    positions where it starts and as [str.count] counts it. *)
Theorem output_mid_count (n : Z) :
  0 <= n ->
  Z.of_nat (List.length (occurrences MID (output n))) = n
  /\ Z.of_nat (count MID (output n)) = n.
Proof.
  intros Hn. pose proof (no_mid_after n Hn) as Hafter.
  rewrite output_around_mid. unfold occurrences, count, mul. split.
  - change MID with (String "A" "mplitudeScale") at 1.
    rewrite occurrences_from_skip by reflexivity.
    change (String "A" "mplitudeScale") with MID.
    rewrite occurrences_mid_repeat.
    change MID with (String "A" "mplitudeScale").
    rewrite occurrences_from_absent by exact Hafter.
    cbn [List.length]. lia.
  - change MID with (String "A" "mplitudeScale") at 1.
    rewrite count_from_skip by reflexivity.
    change (String "A" "mplitudeScale") with MID.
    rewrite count_mid_repeat.
    change MID with (String "A" "mplitudeScale").
    rewrite count_from_absent by exact Hafter.
    lia.
Qed.

Lemma output_mid_count_witness :
  0 <= NUM
  /\ (Z.of_nat (List.length (occurrences MID (output NUM))) = NUM
      /\ Z.of_nat (count MID (output NUM)) = NUM).
Proof.
  split; [unfold NUM; lia | apply (output_mid_count NUM); unfold NUM; lia].
Defined.

(** ** Order of the brackets *)

(** C10: for every repetition count [n >= 0], every [<] of the printed
    string stands before every [>]; the last [<] and the first [>] exist
    and the former is strictly to the left of the latter. *)
Theorem output_brackets_ordered (n : Z) :
  0 <= n ->
  (forall i j : nat,
     String.get i (output n) = Some "<"%char ->
     String.get j (output n) = Some ">"%char ->
     (i < j)%nat)
  /\ exists p q : nat,
       rfind "<" (output n) = Some p
       /\ find ">" (output n) = Some q
       /\ (p < q)%nat.
Proof.
  intros Hn. rewrite output_split.
  pose proof (lt_in_opening n Hn) as Hlo.
  pose proof (gt_in_opening n Hn) as Hgo.
  pose proof (lt_in_closing n Hn) as Hlc.
  pose proof (gt_in_closing n Hn) as Hgc.
  split.
  - intros i j. now apply separated_append.
  - apply last_before_first; [assumption | assumption | lia | lia].
Qed.

Lemma output_brackets_ordered_witness :
  0 <= NUM
  /\ ((forall i j : nat,
         String.get i (output NUM) = Some "<"%char ->
         String.get j (output NUM) = Some ">"%char ->
         (i < j)%nat)
      /\ exists p q : nat,
           rfind "<" (output NUM) = Some p
           /\ find ">" (output NUM) = Some q
           /\ (p < q)%nat).
Proof.
  split; [unfold NUM; lia | apply (output_brackets_ordered NUM); unfold NUM; lia].
Defined.

End CreateStaticSpec.

(* ===================================================================== *)
(** * Facts about arrays and the matrix product                          *)
(* ===================================================================== *)

Module NumpyFacts.
Import Numpy.

Section Cells.
Context {T : Type} {dtype : DType T}.

Lemma sum_upto_ext (n : nat) (f g : nat -> T) :
  (forall k, f k = g k) -> sum_upto n f = sum_upto n g.
Proof.
  intros Hfg. induction n as [|n IH]; simpl; [reflexivity|].
  now rewrite IH, Hfg.
Qed.

Lemma sum_upto_seq (n : nat) (f : nat -> T) :
  sum_upto n f = sum_from zero (seq 0 n) f.
Proof.
  unfold sum_from. induction n as [|n IH]; [reflexivity|].
  rewrite seq_S, fold_left_app. simpl. now rewrite <- IH.
Qed.

Lemma sum_from_shift (acc : T) (ks : list nat) (f : nat -> T) :
  sum_from acc (map S ks) f = sum_from acc ks (fun k => f (S k)).
Proof.
  unfold sum_from. revert acc.
  induction ks as [|k ks IH]; intros acc; simpl; [reflexivity | apply IH].
Qed.

Lemma dot_from_index (u v : list T) (acc : T) (n : nat) :
  List.length u = n -> List.length v = n ->
  dot_from acc u v =
  sum_from acc (seq 0 n) (fun k => mul (nth k u zero) (nth k v zero)).
Proof.
  revert v acc n. induction u as [|x u IH]; intros v acc n Hu Hv.
  - simpl in Hu. subst n. reflexivity.
  - destruct v as [|y v]; simpl in Hu, Hv; [subst n; discriminate|].
    destruct n as [|n]; [discriminate|].
    injection Hu as Hu. injection Hv as Hv.
    rewrite <- cons_seq, <- seq_shift.
    unfold dot_from, sum_from in *. simpl.
    rewrite (IH v _ n Hu Hv).
    symmetry. apply (sum_from_shift _ (seq 0 n)).
Qed.

Lemma dot_index (u v : list T) (n : nat) :
  List.length u = n -> List.length v = n ->
  dot u v = sum_upto n (fun k => mul (nth k u zero) (nth k v zero)).
Proof.
  intros Hu Hv. rewrite sum_upto_seq. now apply dot_from_index.
Qed.

Lemma column_length (R : ndarray T) (j : nat) :
  List.length (column R j) = List.length R.
Proof. apply length_map. Qed.

Lemma column_nth (R : ndarray T) (j k : nat) :
  nth k (column R j) zero = cell R k j.
Proof.
  unfold column, cell.
  destruct j as [|j]; exact (map_nth (fun row => nth _ row zero) R [] k).
Qed.

Lemma shape_row (M : ndarray T) (rows cols i : nat) :
  shape M rows cols -> i < rows -> List.length (nth i M []) = cols.
Proof.
  intros [Hlen Hrows] Hi. rewrite Forall_forall in Hrows.
  apply Hrows, nth_In. now rewrite Hlen.
Qed.

Lemma shape_ncols (M : ndarray T) (rows cols : nat) :
  shape M rows cols -> 0 < rows -> ncols M = cols.
Proof.
  intros HM Hrows. unfold ncols.
  rewrite <- (shape_row M rows cols 0 HM Hrows).
  now destruct M.
Qed.

(** Every cell of a product of an [m x n] by an [n x p] array is the sum
    over [k < n] of [L[i, k] * R[k, j]]. *)
Lemma matmul_cell (L R : ndarray T) (m n p i j : nat) :
  shape L m n -> shape R n p -> 0 < n -> i < m -> j < p ->
  cell (matmul L R) i j =
  sum_upto n (fun k => mul (cell L i k) (cell R k j)).
Proof.
  intros HL HR Hn Hi Hj. unfold cell at 1, matmul.
  rewrite (shape_ncols R n p HR Hn).
  set (rowf := fun row : list T => map (fun j => dot row (column R j)) (seq 0 p)).
  rewrite (nth_indep _ [] (rowf [])) by (rewrite length_map; destruct HL; lia).
  rewrite map_nth. unfold rowf.
  rewrite (nth_indep _ zero ((fun j => dot (nth i L []) (column R j)) 0))
    by (rewrite length_map, length_seq; exact Hj).
  rewrite (map_nth (fun j => dot (nth i L []) (column R j))).
  rewrite seq_nth by exact Hj. simpl.
  rewrite (dot_index _ _ n).
  - apply sum_upto_ext. intros k. now rewrite column_nth.
  - exact (shape_row L m n i HL Hi).
  - rewrite column_length. now destruct HR.
Qed.

End Cells.

(** ** 64-bit integer elements *)

Section Int64.
Local Open Scope Z_scope.

Lemma wrap64_small (x : Z) : - 2 ^ 63 <= x < 2 ^ 63 -> wrap64 x = x.
Proof. intros Hx. unfold wrap64. rewrite Z.mod_small; lia. Qed.

(** Reduction only ever adds a multiple of [2 ^ 64] ... *)
Lemma wrap64_multiple (x : Z) : exists k, wrap64 x = x + k * 2 ^ 64.
Proof.
  exists (- ((x + 2 ^ 63) / 2 ^ 64)). unfold wrap64.
  rewrite Z.mod_eq by lia. lia.
Qed.

(** ... and does not see one. *)
Lemma wrap64_shift (x k : Z) : wrap64 (x + k * 2 ^ 64) = wrap64 x.
Proof.
  unfold wrap64.
  replace (x + k * 2 ^ 64 + 2 ^ 63) with (x + 2 ^ 63 + k * 2 ^ 64) by ring.
  now rewrite Z_mod_plus_full.
Qed.

(** One multiply-add of the loop commutes with multiplying by [c]. *)
Lemma madd_scale (c acc x y : Z) :
  add (mul c acc) (mul x (mul c y)) = mul c (add acc (mul x y)).
Proof.
  cbn [add mul int64].
  destruct (wrap64_multiple (c * acc)) as [k1 ->].
  destruct (wrap64_multiple (c * y)) as [k2 ->].
  destruct (wrap64_multiple (x * (c * y + k2 * 2 ^ 64))) as [k3 ->].
  destruct (wrap64_multiple (x * y)) as [k4 ->].
  destruct (wrap64_multiple (acc + (x * y + k4 * 2 ^ 64))) as [k5 ->].
  replace (c * acc + k1 * 2 ^ 64
           + (x * (c * y + k2 * 2 ^ 64) + k3 * 2 ^ 64))
    with (c * (acc + (x * y + k4 * 2 ^ 64) + k5 * 2 ^ 64)
          + (k1 + x * k2 + k3 - c * k4 - c * k5) * 2 ^ 64) by ring.
  apply wrap64_shift.
Qed.

Lemma dot_from_scale (c : Z) (u v : list Z) (acc : Z) :
  dot_from (mul c acc) u (map (mul c) v) = mul c (dot_from acc u v).
Proof.
  revert v acc. induction u as [|x u IH]; intros v acc; [reflexivity|].
  destruct v as [|y v]; [reflexivity|].
  unfold dot_from in *. cbn [map combine fold_left fst snd].
  rewrite madd_scale. apply IH.
Qed.

Lemma dot_scale (c : Z) (u v : list Z) :
  dot u (map (mul c) v) = mul c (dot u v).
Proof.
  unfold dot. rewrite <- dot_from_scale. f_equal.
  cbn [add mul zero int64]. now rewrite Z.mul_0_r.
Qed.

Lemma column_scale (c : Z) (R : ndarray Z) (j : nat) :
  column (scale c R) j = map (mul c) (column R j).
Proof.
  unfold column, scale. rewrite !map_map. apply map_ext. intros row.
  replace (zero (T:=Z)) with (mul c zero) at 1
    by (cbn [mul zero int64]; now rewrite Z.mul_0_r).
  apply map_nth.
Qed.

Lemma ncols_scale (c : Z) (R : ndarray Z) : ncols (scale c R) = ncols R.
Proof. destruct R as [|row R]; [reflexivity | apply length_map]. Qed.

(** A scalar factor of the right operand can be taken out of the product:
    [L @ (c * R) = c * (L @ R)], also when the 64-bit arithmetic wraps. *)
Lemma matmul_scale (c : Z) (L R : ndarray Z) :
  matmul L (scale c R) = scale c (matmul L R).
Proof.
  unfold matmul. rewrite ncols_scale. unfold scale at 2.
  rewrite map_map. apply map_ext. intros row.
  rewrite map_map. apply map_ext. intros j.
  now rewrite column_scale, dot_scale.
Qed.

End Int64.

End NumpyFacts.

(* ===================================================================== *)
(** * temp.py: the four printed arrays                                   *)
(* ===================================================================== *)

Module TempSpec.
Import Numpy NumpyFacts Temp.

(** ** The operands *)

Lemma shape_a : shape a 3 3.
Proof. split; [reflexivity | repeat constructor]. Qed.

Lemma shape_b : shape b 3 3.
Proof. split; [reflexivity | repeat constructor]. Qed.

Section Operands.
Context {G : Type} {gen : BitGenerator G} {blas : Float64Product}.

Lemma samples_length (n : nat) (g : G) : List.length (fst (samples n g)) = n.
Proof.
  revert g. induction n as [|n IH]; intros g; simpl; [reflexivity|].
  destruct (random_sample g) as [x g1]. specialize (IH g1).
  destruct (samples n g1) as [xs g2]. simpl in *. now rewrite IH.
Qed.

Lemma rand_shape (rows cols : nat) (g : G) :
  shape (fst (rand rows cols g)) rows cols.
Proof.
  revert g. induction rows as [|rows IH]; intros g; simpl.
  - split; [reflexivity | constructor].
  - pose proof (samples_length cols g) as Hr.
    destruct (samples cols g) as [r g1]. specialize (IH g1).
    destruct (rand rows cols g1) as [rs g2]. simpl in *.
    destruct IH as [Hlen Hall].
    split; [simpl; now rewrite Hlen | now constructor].
Qed.

(** What one execution binds and prints, in terms of the two draws. *)
Lemma run_unfold (g : G) :
  let A := fst (rand 3 3 g) in
  let B := fst (rand 3 3 (snd (rand 3 3 g))) in
  run g =
  ({| var_A := A; var_B := B; var_a := a; var_b := b |},
   {| rng := snd (rand 3 3 (snd (rand 3 3 g)));
      stdout := [PFloat A; PFloat B; PFloat (matmul_f64 A B);
                 PInt (matmul a b)] |}).
Proof.
  unfold run, temp, bind, np_random_rand, print, ret. cbn [rng stdout].
  destruct (rand 3 3 g) as [A g1]. cbn [fst snd rng stdout].
  destruct (rand 3 3 g1) as [B g2]. reflexivity.
Qed.

End Operands.

(** ** The product of the literal arrays *)

(** The 64-bit cells wrap where unbounded integers would not. *)
Example matmul_int64_wraps :
  matmul [[2 ^ 62]]%Z [[2]]%Z = [[- 2 ^ 63]]%Z
  /\ matmul (dtype := exact_int) [[2 ^ 62]]%Z [[2]]%Z = [[2 ^ 63]]%Z.
Proof. split; reflexivity. Qed.

(** The product is not the element-wise one. *)
Lemma matmul_is_not_multiply : matmul a b <> multiply a b.
Proof. discriminate. Qed.

(** C3: the product of the two literal arrays is
    [[300,360,420],[660,810,960],[1020,1260,1500]], and the 64-bit
    arithmetic of the arrays gives the same cells as unbounded integer
    arithmetic. *)
Theorem fixed_product :
  a = [[1; 2; 3]; [4; 5; 6]; [7; 8; 9]]%Z
  /\ b = [[10; 20; 30]; [40; 50; 60]; [70; 80; 90]]%Z
  /\ matmul a b = [[300; 360; 420]; [660; 810; 960]; [1020; 1260; 1500]]%Z
  /\ matmul (dtype := exact_int) a b = matmul a b.
Proof. repeat split. Qed.

(** C9: the second literal array is ten times the first, and the printed
    product [a @ b] is ten times [a @ a]. *)
Theorem fixed_product_scaled
    {G : Type} {gen : BitGenerator G} {blas : Float64Product} :
  b = scale 10%Z a
  /\ matmul a b = scale 10%Z (matmul a a)
  /\ forall g : G,
       nth_error (stdout (snd (run g))) 3 =
       Some (PInt (scale 10%Z (matmul a a))).
Proof.
  assert (Hb : b = scale 10%Z a) by reflexivity.
  assert (Hab : matmul a b = scale 10%Z (matmul a a))
    by (rewrite Hb; apply matmul_scale).
  repeat split; try assumption.
  intros g. rewrite run_unfold. cbn [snd stdout nth_error]. now rewrite Hab.
Qed.

(** ** What is printed *)

(** C6: one execution prints exactly four arrays, in this order: the first
    random array, the second random array, their product, and the product
    of the two literal arrays. *)
Theorem printed_in_order
    {G : Type} {gen : BitGenerator G} {blas : Float64Product} (g : G) :
  let env := fst (run g) in
  stdout (snd (run g)) =
    [PFloat (var_A env); PFloat (var_B env);
     PFloat (matmul_f64 (var_A env) (var_B env));
     PInt (matmul (var_a env) (var_b env))]
  /\ var_A env = fst (rand 3 3 g)
  /\ var_B env = fst (rand 3 3 (snd (rand 3 3 g)))
  /\ var_a env = a
  /\ var_b env = b.
Proof.
  rewrite run_unfold. cbn. repeat split.
Qed.

(** C7: two executions, whatever their generators draw, bind the same two
    literal arrays and print the same product of them; any rendering of
    that product to text is therefore the same in both. *)
Theorem fixed_part_same_across_runs
    {G : Type} {gen : BitGenerator G} {blas : Float64Product} (g1 g2 : G) :
  var_a (fst (run g1)) = var_a (fst (run g2))
  /\ var_b (fst (run g1)) = var_b (fst (run g2))
  /\ nth_error (stdout (snd (run g1))) 3 = nth_error (stdout (snd (run g2))) 3
  /\ nth_error (stdout (snd (run g1))) 3 =
     Some (PInt [[300; 360; 420]; [660; 810; 960]; [1020; 1260; 1500]]%Z)
  /\ forall render : printed -> string,
       option_map render (nth_error (stdout (snd (run g1))) 3) =
       option_map render (nth_error (stdout (snd (run g2))) 3).
Proof.
  rewrite !run_unfold. cbn [fst snd stdout var_a var_b nth_error].
  repeat split.
Qed.

End TempSpec.

(* ===================================================================== *)
(** * create_static.py: size, shape and edge cases of the chain          *)
(* ===================================================================== *)

Module ChainFacts.
Import PyStr PyStrFacts OccurrenceFacts CreateStatic CreateStaticSpec Nesting.

Local Open Scope Z_scope.

(** ** Length *)

Lemma length_mul (s : string) (n : Z) :
  0 <= n -> Z.of_nat (String.length (mul s n)) = n * Z.of_nat (String.length s).
Proof. intros Hn. unfold mul. rewrite length_repeat_nat. lia. Qed.

Lemma length_opening (n : Z) :
  0 <= n -> Z.of_nat (String.length (opening n)) = 15 * n + 22.
Proof.
  intros Hn. unfold opening.
  rewrite !length_append, !Nat2Z.inj_add, length_mul by exact Hn.
  change (String.length SINK) with 10%nat.
  change (String.length (MID ++ "<")) with 15%nat.
  change (String.length SOURCE) with 11%nat.
  change (String.length "<") with 1%nat. lia.
Qed.

Lemma length_closing (n : Z) :
  0 <= n -> Z.of_nat (String.length (closing n)) = n + 6.
Proof.
  intros Hn. unfold closing.
  rewrite length_append, Nat2Z.inj_add, length_mul by lia.
  change (String.length ">") with 1%nat.
  change (String.length "sink;") with 5%nat. lia.
Qed.

Lemma length_output (n : Z) :
  0 <= n -> Z.of_nat (String.length (output n)) = 16 * n + 28.
Proof.
  intros Hn.
  rewrite output_split, length_append, Nat2Z.inj_add.
  rewrite length_opening, length_closing by exact Hn. lia.
Qed.

(** X1: with [n >= 0] middle modules the printed string is [16 * n + 28]
    characters long: 22 for the sink, the source and their bracket, 15 and
    one closing bracket per middle module, 6 for the last [>] and [sink;]. *)
Theorem output_length (n : Z) :
  0 <= n ->
  Z.of_nat (String.length (output n)) = 16 * n + 28
  /\ Z.of_nat (String.length (opening n)) = 15 * n + 22
  /\ Z.of_nat (String.length (closing n)) = n + 6.
Proof.
  intros Hn. split; [|split].
  - now apply length_output.
  - now apply length_opening.
  - now apply length_closing.
Qed.

Lemma output_length_witness :
  0 <= NUM
  /\ (Z.of_nat (String.length (output NUM)) = 16 * NUM + 28
      /\ Z.of_nat (String.length (opening NUM)) = 15 * NUM + 22
      /\ Z.of_nat (String.length (closing NUM)) = NUM + 6).
Proof.
  split; [unfold NUM; lia | apply (output_length NUM); unfold NUM; lia].
Defined.

(** X2: two different non-negative repetition counts never print the same
    string. *)
Theorem output_injective (n m : Z) :
  0 <= n -> 0 <= m -> output n = output m -> n = m.
Proof.
  intros Hn Hm E.
  apply (f_equal String.length) in E. apply (f_equal Z.of_nat) in E.
  rewrite !length_output in E by assumption. lia.
Qed.

Lemma output_injective_witness :
  0 <= NUM /\ 0 <= 200 /\ output NUM = output 200 /\ NUM = 200.
Proof.
  assert (Hn : 0 <= NUM) by (unfold NUM; lia).
  assert (Hm : 0 <= 200) by lia.
  assert (E : output NUM = output 200) by reflexivity.
  split; [exact Hn|]. split; [exact Hm|]. split; [exact E|].
  exact (output_injective NUM 200 Hn Hm E).
Defined.

(** ** The chain as a nested expression *)

Lemma repeat_nat_snoc (s : string) (k : nat) :
  repeat_nat s (S k) = (repeat_nat s k ++ s)%string.
Proof.
  induction k as [|k IH].
  - cbn [repeat_nat]. now rewrite append_nil_r.
  - change (repeat_nat s (S (S k))) with (s ++ repeat_nat s (S k))%string.
    rewrite IH at 1. cbn [repeat_nat]. now rewrite append_assoc.
Qed.

(** The flat concatenation of [k] openings, the source and [k] closings is
    the [k]-fold wrapping. *)
Lemma nest_flat (k : nat) :
  nest k =
  (repeat_nat (MID ++ "<") k ++ (SOURCE ++ repeat_nat ">" k))%string.
Proof.
  induction k as [|k IH].
  - cbn [nest repeat_nat]. change ("" ++ ?x)%string with x.
    now rewrite append_nil_r.
  - cbn [nest]. rewrite IH, (repeat_nat_snoc ">" k).
    cbn [repeat_nat]. now rewrite !append_assoc.
Qed.

(** X4: for [n >= 0] the printed string is the sink wrapped around [n]
    middle modules wrapped around the source, every module closing its own
    bracket, followed by [sink;]. *)
Theorem output_nested (n : Z) :
  0 <= n ->
  output n = (SINK ++ "<" ++ nest (Z.to_nat n) ++ ">" ++ "sink;")%string.
Proof.
  intros Hn. rewrite nest_flat. unfold output, init, mul.
  replace (n + 1) with (Z.succ n) by lia.
  rewrite Z2Nat.inj_succ by exact Hn.
  rewrite (repeat_nat_snoc ">"). now rewrite !append_assoc.
Qed.

Lemma output_nested_witness :
  0 <= 2
  /\ output 2 = (SINK ++ "<" ++ nest (Z.to_nat 2) ++ ">" ++ "sink;")%string.
Proof.
  split; [lia | apply (output_nested 2); lia].
Defined.

(** ** Bracket depth *)

Lemma scan_append (d p : nat) (s t : string) :
  scan d p (s ++ t) =
  match scan d p s with
  | Some (d', p') => scan d' p' t
  | None => None
  end.
Proof.
  revert d p. induction s as [|c s IH]; intros d p; [reflexivity|].
  cbn [append scan].
  destruct (Ascii.eqb c "<"); [apply IH|].
  destruct (Ascii.eqb c ">"); [|apply IH].
  destruct d as [|d]; [reflexivity | apply IH].
Qed.

Lemma scan_open_repeat (k d p : nat) :
  (d <= p)%nat ->
  scan d p (repeat_nat (MID ++ "<") k) = Some ((k + d)%nat, Nat.max p (k + d)).
Proof.
  revert d p. induction k as [|k IH]; intros d p Hdp.
  - cbn [repeat_nat scan]. do 2 f_equal. lia.
  - cbn [repeat_nat]. rewrite scan_append.
    change (scan d p (MID ++ "<")) with (Some (S d, Nat.max p (S d))).
    cbv beta iota. rewrite IH by lia. do 2 f_equal; lia.
Qed.

Lemma scan_close_repeat (k d p : nat) :
  (k <= d)%nat -> scan d p (repeat_nat ">" k) = Some ((d - k)%nat, p).
Proof.
  revert d. induction k as [|k IH]; intros d Hkd.
  - cbn [repeat_nat scan]. do 2 f_equal. lia.
  - destruct d as [|d]; [lia|].
    cbn [repeat_nat]. change (">" ++ ?x)%string with (String ">" x).
    cbn [scan]. change (Ascii.eqb ">" "<") with false.
    change (Ascii.eqb ">" ">") with true. cbn iota.
    rewrite IH by lia. reflexivity.
Qed.

(** X5: for [n >= 0] the brackets of the printed string are properly
    nested: read from the left, no [>] comes with nothing open, nothing is
    left open at the end, and the depth reaches [n + 1]. *)
Theorem output_well_nested (n : Z) :
  0 <= n -> scan 0 0 (output n) = Some (0%nat, S (Z.to_nat n)).
Proof.
  intros Hn. rewrite output_around_mid. unfold closing, mul.
  replace (n + 1) with (Z.succ n) by lia.
  rewrite Z2Nat.inj_succ by exact Hn.
  set (k := Z.to_nat n).
  rewrite scan_append.
  change (scan 0 0 (SINK ++ "<")) with (Some (1%nat, 1%nat)).
  cbv beta iota. rewrite scan_append, scan_open_repeat by lia.
  rewrite scan_append.
  change (scan ?d ?p SOURCE) with (Some (d, p)).
  cbv beta iota. rewrite scan_append, scan_close_repeat by lia.
  change (scan ?d ?p "sink;") with (Some (d, p)).
  do 2 f_equal; lia.
Qed.

Lemma output_well_nested_witness :
  0 <= NUM /\ scan 0 0 (output NUM) = Some (0%nat, S (Z.to_nat NUM)).
Proof.
  split; [unfold NUM; lia | apply (output_well_nested NUM); unfold NUM; lia].
Defined.

(** ** Where the modules stand *)

Lemma occurrences_mid_positions (k : nat) (rest : string) (i : nat) :
  occurrences_from MID (repeat_nat (MID ++ "<") k ++ rest) i =
  (map (fun j => (i + 15 * j)%nat) (seq 0 k)
   ++ occurrences_from MID rest (15 * k + i)%nat)%list.
Proof.
  revert i. induction k as [|k IH]; intros i; [reflexivity|].
  cbn [repeat_nat]. rewrite append_assoc, occurrences_mid_step, IH.
  cbn [seq map]. rewrite <- seq_shift, map_map, <- app_comm_cons.
  f_equal; [lia|]. f_equal.
  - apply map_ext. intros j. lia.
  - f_equal. lia.
Qed.

(** X6: for [n >= 0] the middle module starts at the positions
    [11, 26, 41, ...], one every 15 characters from the end of
    [SinkModule<] on, and nowhere else. *)
Theorem output_mid_positions (n : Z) :
  0 <= n ->
  occurrences MID (output n) =
  map (fun j => (11 + 15 * j)%nat) (seq 0 (Z.to_nat n)).
Proof.
  intros Hn. pose proof (no_mid_after n Hn) as Hafter.
  rewrite output_around_mid. unfold occurrences, mul.
  change MID with (String "A" "mplitudeScale") at 1.
  rewrite occurrences_from_skip by reflexivity.
  change (String "A" "mplitudeScale") with MID.
  rewrite occurrences_mid_positions.
  change MID with (String "A" "mplitudeScale").
  rewrite occurrences_from_absent by exact Hafter.
  rewrite app_nil_r. apply map_ext. intros j.
  change (String.length (SINK ++ "<")) with 11%nat. lia.
Qed.

Lemma output_mid_positions_witness :
  0 <= 3
  /\ occurrences MID (output 3) =
     map (fun j => (11 + 15 * j)%nat) (seq 0 (Z.to_nat 3)).
Proof.
  split; [lia | apply (output_mid_positions 3); lia].
Defined.

(** The chain up to the source, and the rest. *)
Lemma output_around_source (n : Z) :
  output n =
  (((SINK ++ "<") ++ mul (MID ++ "<") n) ++ (SOURCE ++ closing n))%string.
Proof.
  unfold output, init, closing. now rewrite !append_assoc.
Qed.

Lemma length_before_source (n : Z) :
  0 <= n ->
  String.length ((SINK ++ "<") ++ mul (MID ++ "<") n) = Z.to_nat (15 * n + 11).
Proof.
  intros Hn. apply Nat2Z.inj.
  rewrite length_append, Nat2Z.inj_add, length_mul by exact Hn.
  change (String.length (SINK ++ "<")) with 11%nat.
  change (String.length (MID ++ "<")) with 15%nat. lia.
Qed.

Lemma no_source_before (n : Z) :
  count_char "C" ((SINK ++ "<") ++ mul (MID ++ "<") n) = 0%nat.
Proof.
  unfold mul. rewrite count_char_append, count_char_repeat_nat.
  eval_counts. lia.
Qed.

Lemma no_source_after (n : Z) :
  0 <= n -> count_char "C" (closing n) = 0%nat.
Proof.
  intros Hn. apply Nat2Z.inj.
  rewrite count_char_closing by exact Hn. eval_counts. lia.
Qed.

(** The last character before the source is a [<], whatever the number of
    middle modules. *)
Lemma get_last_opening (k : nat) (pre rest : string) :
  String.get (String.length pre + 15 * k)
    ((pre ++ "<") ++ (repeat_nat (MID ++ "<") k ++ rest)) = Some "<"%char.
Proof.
  revert pre. induction k as [|k IH]; intros pre.
  - cbn [repeat_nat]. change ("" ++ rest)%string with rest.
    rewrite append_assoc, get_append_right by lia.
    replace (String.length pre + 15 * 0 - String.length pre)%nat with 0%nat
      by lia.
    reflexivity.
  - cbn [repeat_nat].
    replace ((pre ++ "<") ++ (((MID ++ "<") ++ repeat_nat (MID ++ "<") k) ++ rest))%string
      with ((((pre ++ "<") ++ MID) ++ "<")
            ++ (repeat_nat (MID ++ "<") k ++ rest))%string
      by now rewrite !append_assoc.
    replace (String.length pre + 15 * S k)%nat
      with (String.length ((pre ++ "<") ++ MID) + 15 * k)%nat.
    + apply IH.
    + rewrite !length_append.
      change (String.length MID) with 14%nat.
      change (String.length "<") with 1%nat. lia.
Qed.

(** X7: for [n >= 0] the source occurs exactly once in the printed string,
    at position [15 * n + 11], and the character just before it is a [<]. *)
Theorem output_source_position (n : Z) :
  0 <= n ->
  occurrences SOURCE (output n) = [Z.to_nat (15 * n + 11)]
  /\ count SOURCE (output n) = 1%nat
  /\ String.get (Z.to_nat (15 * n + 10)) (output n) = Some "<"%char.
Proof.
  intros Hn.
  pose proof (no_source_before n) as Hbefore.
  pose proof (no_source_after n Hn) as Hafter.
  split; [|split].
  - rewrite output_around_source. unfold occurrences.
    change SOURCE with (String "C" "onstModule") at 1.
    rewrite occurrences_from_skip by exact Hbefore.
    rewrite length_before_source by exact Hn.
    change (String "C" "onstModule") with SOURCE.
    change (occurrences_from SOURCE (SOURCE ++ closing n) ?i)
      with (i :: occurrences_from SOURCE (closing n) (11 + i)%nat).
    change SOURCE with (String "C" "onstModule").
    rewrite occurrences_from_absent by exact Hafter.
    f_equal. lia.
  - rewrite output_around_source. unfold count.
    change SOURCE with (String "C" "onstModule") at 1.
    rewrite count_from_skip by exact Hbefore.
    change (String "C" "onstModule") with SOURCE.
    change (count_from SOURCE (SOURCE ++ closing n) 0)
      with (S (count_from SOURCE (closing n) 0)).
    change SOURCE with (String "C" "onstModule").
    rewrite count_from_absent by exact Hafter. reflexivity.
  - rewrite output_around_mid. unfold mul.
    replace (Z.to_nat (15 * n + 10))
      with (String.length SINK + 15 * Z.to_nat n)%nat
      by (change (String.length SINK) with 10%nat; lia).
    apply get_last_opening.
Qed.

Lemma output_source_position_witness :
  0 <= NUM
  /\ (occurrences SOURCE (output NUM) = [Z.to_nat (15 * NUM + 11)]
      /\ count SOURCE (output NUM) = 1%nat
      /\ String.get (Z.to_nat (15 * NUM + 10)) (output NUM) = Some "<"%char).
Proof.
  split; [unfold NUM; lia | apply (output_source_position NUM); unfold NUM; lia].
Defined.

End ChainFacts.

(* ===================================================================== *)
(** * temp.py: draws, shapes and integer overflow                        *)
(* ===================================================================== *)

Module TempFacts.
Import Numpy NumpyFacts Temp TempSpec ArrayViews.

Local Open Scope list_scope.

(** ** What the script takes from the generator *)

Section Draws.
Context {G : Type} {gen : BitGenerator G} {blas : Float64Product}.

(** Drawing [m + n] samples is drawing [m] and then [n]. *)
Lemma samples_add (m n : nat) (g : G) :
  samples (m + n) g =
  (fst (samples m g) ++ fst (samples n (snd (samples m g))),
   snd (samples n (snd (samples m g)))).
Proof.
  revert g. induction m as [|m IH]; intros g.
  - cbn [Nat.add samples fst snd app]. now destruct (samples n g).
  - cbn [Nat.add samples]. destruct (random_sample g) as [x g1].
    rewrite IH. destruct (samples m g1) as [xs g2]. reflexivity.
Qed.

Lemma rand_concat (rows cols : nat) (g : G) :
  List.concat (fst (rand rows cols g)) = fst (samples (rows * cols) g)
  /\ snd (rand rows cols g) = snd (samples (rows * cols) g).
Proof.
  revert g. induction rows as [|rows IH]; intros g; [now split|].
  cbn [rand Nat.mul]. rewrite samples_add.
  destruct (samples cols g) as [r g1]. cbn [fst snd].
  destruct (IH g1) as [Hc Hs].
  destruct (rand rows cols g1) as [rs g2]. cbn [fst snd List.concat] in *.
  now rewrite Hc, Hs.
Qed.

(** X8: [np.random.rand(rows, cols)] takes exactly [rows * cols] samples
    from the generator, lays them out row by row in the order drawn, and
    leaves the generator where those samples left it. *)
Theorem rand_row_major (rows cols : nat) (g : G) :
  List.concat (fst (rand rows cols g)) = fst (samples (rows * cols) g)
  /\ snd (rand rows cols g) = snd (samples (rows * cols) g)
  /\ shape (fst (rand rows cols g)) rows cols.
Proof.
  destruct (rand_concat rows cols g) as [Hc Hs].
  split; [exact Hc|]. split; [exact Hs|]. apply rand_shape.
Qed.

(** X9: one execution takes exactly 18 samples: the first nine fill [A]
    row by row, the next nine fill [B], and the four [print]s leave the
    generator as the eighteenth sample left it. *)
Theorem run_draws (g : G) :
  let env := fst (run g) in
  List.concat (var_A env) ++ List.concat (var_B env) = fst (samples 18 g)
  /\ List.concat (var_A env) = fst (samples 9 g)
  /\ List.concat (var_B env) = fst (samples 9 (snd (samples 9 g)))
  /\ rng (snd (run g)) = snd (samples 18 g).
Proof.
  rewrite run_unfold. cbn [fst snd var_A var_B rng].
  destruct (rand_concat 3 3 g) as [HA Hg1]. rewrite Hg1.
  destruct (rand_concat 3 3 (snd (samples (3 * 3) g))) as [HB Hg2].
  rewrite HA, HB, Hg2. change (3 * 3) with 9.
  change 18 with (9 + 9). rewrite samples_add. cbn [fst snd].
  repeat split.
Qed.

End Draws.

(** ** Shapes *)

Section Shapes.
Context {T : Type} {dtype : DType T}.

(** The product of an [m x n] by an [n x p] array is [m x p]. *)
Lemma matmul_shape (L R : ndarray T) (m n p : nat) :
  shape L m n -> shape R n p -> 0 < n -> shape (matmul L R) m p.
Proof.
  intros [HLlen HLrows] HR Hn. unfold matmul.
  rewrite (shape_ncols R n p HR Hn). split.
  - now rewrite length_map.
  - apply Forall_forall. intros row Hrow.
    apply in_map_iff in Hrow. destruct Hrow as [r [<- _]].
    now rewrite length_map, length_seq.
Qed.

End Shapes.

(** The [float64] product has one row per row of the left operand and one
    column per column of the right one, whatever the library puts in the
    cells. *)
Lemma matmul_f64_shape {blas : Float64Product}
    (L R : ndarray PrimFloat.float) (m n p : nat) :
  shape L m n -> shape R n p -> 0 < n -> shape (matmul_f64 L R) m p.
Proof.
  intros [HLlen _] HR Hn. unfold matmul_f64.
  rewrite (shape_ncols R n p HR Hn), HLlen. split.
  - now rewrite length_map, length_seq.
  - apply Forall_forall. intros row Hrow.
    apply in_map_iff in Hrow. destruct Hrow as [i [<- _]].
    now rewrite length_map, length_seq.
Qed.

(** X10: each of the four arrays an execution prints is 3x3. *)
Theorem printed_shapes
    {G : Type} {gen : BitGenerator G} {blas : Float64Product} (g : G) :
  Forall (printed_shape 3 3) (stdout (snd (run g))).
Proof.
  rewrite run_unfold. cbn [snd stdout].
  pose proof (rand_shape 3 3 g) as HA.
  pose proof (rand_shape 3 3 (snd (rand 3 3 g))) as HB.
  apply Forall_cons; [exact HA|].
  apply Forall_cons; [exact HB|].
  apply Forall_cons;
    [apply (matmul_f64_shape _ _ 3 3 3); auto with arith|].
  apply Forall_cons; [|apply Forall_nil].
  apply (matmul_shape _ _ 3 3 3); auto using shape_a, shape_b with arith.
Qed.

(** ** 64-bit cells against unbounded integers *)

Section Overflow.
Local Open Scope Z_scope.

(** Reducing the operands of a multiply-add first changes nothing. *)
Lemma wrap64_madd (acc x y : Z) :
  wrap64 (wrap64 acc + wrap64 (x * y)) = wrap64 (acc + x * y).
Proof.
  destruct (wrap64_multiple acc) as [k1 ->].
  destruct (wrap64_multiple (x * y)) as [k2 ->].
  replace (acc + k1 * 2 ^ 64 + (x * y + k2 * 2 ^ 64))
    with (acc + x * y + (k1 + k2) * 2 ^ 64) by ring.
  apply wrap64_shift.
Qed.

Lemma dot_from_wrap (u v : list Z) (acc : Z) :
  dot_from (dtype := int64) (wrap64 acc) u v =
  wrap64 (dot_from (dtype := exact_int) acc u v).
Proof.
  revert v acc. induction u as [|x u IH]; intros v acc; [reflexivity|].
  destruct v as [|y v]; [reflexivity|].
  unfold dot_from in *. cbn [combine fold_left fst snd].
  cbn [add mul int64 exact_int]. rewrite wrap64_madd. apply IH.
Qed.

(** X11: on [int64] arrays of any shape, [L @ R] is the product computed
    in unbounded integers with every cell reduced to 64 bits once at the
    end: the intermediate wrap-arounds leave no other trace. *)
Theorem matmul_int64_reduces (L R : ndarray Z) :
  matmul (dtype := int64) L R =
  map (map wrap64) (matmul (dtype := exact_int) L R).
Proof.
  unfold matmul. rewrite map_map. apply map_ext. intros row.
  rewrite map_map. apply map_ext. intros j.
  exact (dot_from_wrap row (column R j) 0).
Qed.

(** The unbounded inner product of vectors with entries up to [B] stays
    within [B * B] per index of its starting value. *)
Lemma exact_dot_bound (B : Z) (u v : list Z) (acc : Z) :
  0 <= B ->
  Forall (fun x => Z.abs x <= B) u -> Forall (fun x => Z.abs x <= B) v ->
  Z.abs (dot_from (dtype := exact_int) acc u v)
  <= Z.abs acc + Z.of_nat (List.length u) * (B * B).
Proof.
  intros HB Hu. revert v acc.
  induction Hu as [|x u Hx Hu IH]; intros v acc Hv.
  - cbn. lia.
  - destruct Hv as [|y v Hy Hv].
    + cbn [dot_from combine fold_left].
      assert (0 <= Z.of_nat (List.length (x :: u)) * (B * B))
        by (apply Z.mul_nonneg_nonneg; [lia | nia]).
      lia.
    + change (dot_from (dtype := exact_int) acc (x :: u) (y :: v))
        with (dot_from (dtype := exact_int) (acc + x * y) u v).
      specialize (IH v (acc + x * y) Hv).
      assert (Hxy : Z.abs (x * y) <= B * B).
      { rewrite Z.abs_mul. apply Z.mul_le_mono_nonneg; lia. }
      cbn [List.length]. rewrite Nat2Z.inj_succ.
      remember (dot_from (dtype := exact_int) (acc + x * y) u v) as D.
      remember (x * y) as xy. remember (B * B) as BB.
      remember (Z.of_nat (List.length u)) as len.
      replace (Z.succ len * BB) with (len * BB + BB) by ring.
      remember (len * BB) as lBB. lia.
Qed.

Lemma column_within (B : Z) (R : ndarray Z) (j : nat) :
  0 <= B -> cells_within B R ->
  Forall (fun x => Z.abs x <= B) (column R j).
Proof.
  intros HB HR. unfold column. apply Forall_forall. intros x Hx.
  apply in_map_iff in Hx. destruct Hx as [row [<- Hrow]].
  unfold cells_within in HR. rewrite Forall_forall in HR.
  specialize (HR row Hrow). rewrite Forall_forall in HR.
  destruct (nth_in_or_default j row zero) as [Hin | ->].
  - now apply HR.
  - cbn. lia.
Qed.

(** X12: when the inner dimension is below 8 and no cell of either operand
    exceeds [2 ^ 30] in absolute value, the [int64] product is the exact
    integer product: nothing wraps. *)
Theorem matmul_small_exact (L R : ndarray Z) (m n p : nat) :
  shape L m n -> shape R n p -> (n < 8)%nat ->
  cells_within (2 ^ 30) L -> cells_within (2 ^ 30) R ->
  matmul (dtype := int64) L R = matmul (dtype := exact_int) L R.
Proof.
  intros [HLlen HLrows] HR Hn HLc HRc.
  unfold matmul. apply map_ext_in. intros row Hrow.
  apply map_ext. intros j.
  transitivity
    (wrap64 (dot_from (dtype := exact_int) 0 row
               (column (dtype := exact_int) R j)));
    [exact (dot_from_wrap row (column R j) 0)|].
  apply wrap64_small.
  unfold cells_within in HLc. rewrite Forall_forall in HLc, HLrows.
  pose proof (exact_dot_bound (2 ^ 30) row (column (dtype := exact_int) R j) 0
                ltac:(lia) (HLc row Hrow)
                (column_within (2 ^ 30) R j ltac:(lia) HRc)) as Hb.
  rewrite (HLrows row Hrow) in Hb. unfold dot.
  change (zero (T := Z)) with 0. lia.
Qed.

Lemma matmul_small_exact_witness :
  shape a 3 3 /\ shape b 3 3 /\ (3 < 8)%nat
  /\ cells_within (2 ^ 30) a /\ cells_within (2 ^ 30) b
  /\ matmul (dtype := int64) a b = matmul (dtype := exact_int) a b.
Proof.
  assert (Ha : shape a 3 3) by (split; [reflexivity | repeat constructor]).
  assert (Hb : shape b 3 3) by (split; [reflexivity | repeat constructor]).
  assert (Hn : (3 < 8)%nat) by lia.
  assert (Hca : cells_within (2 ^ 30) a)
    by (repeat constructor; vm_compute; discriminate).
  assert (Hcb : cells_within (2 ^ 30) b)
    by (repeat constructor; vm_compute; discriminate).
  split; [exact Ha|]. split; [exact Hb|]. split; [exact Hn|].
  split; [exact Hca|]. split; [exact Hcb|].
  exact (matmul_small_exact a b 3 3 3 Ha Hb Hn Hca Hcb).
Defined.

End Overflow.

End TempFacts.

(* ===================================================================== *)
(** * create_static.py: when the script prints and when it raises         *)
(* ===================================================================== *)

Module ScriptErrors.
Import PyStr PyStrFacts CreateStatic CreateStaticSpec Nesting.
Import CPython CreateStaticChecked.

Local Open Scope Z_scope.

Lemma as_ssize_t_fits (n : Z) :
  PY_SSIZE_T_MIN <= n <= PY_SSIZE_T_MAX -> as_ssize_t n = inr n.
Proof.
  intros [Hlo Hhi]. unfold as_ssize_t.
  apply Z.leb_le in Hlo. apply Z.leb_le in Hhi. now rewrite Hlo, Hhi.
Qed.

Lemma as_ssize_t_outside (n : Z) :
  n < PY_SSIZE_T_MIN \/ PY_SSIZE_T_MAX < n -> as_ssize_t n = inl OverflowError.
Proof.
  intros H. unfold as_ssize_t.
  destruct (Z.leb_spec PY_SSIZE_T_MIN n);
    destruct (Z.leb_spec n PY_SSIZE_T_MAX); try reflexivity; lia.
Qed.

Lemma length_mul_any (s : string) (n : Z) :
  Z.of_nat (String.length (mul s n)) = Z.max 0 n * Z.of_nat (String.length s).
Proof. unfold mul. rewrite length_repeat_nat. lia. Qed.

(** A count that is an index, with a result short enough, repeats. *)
Lemma repeat_fits (s : string) (n : Z) :
  PY_SSIZE_T_MIN <= n <= PY_SSIZE_T_MAX ->
  Z.of_nat (String.length s) * n <= PY_SSIZE_T_MAX ->
  repeat s n = inr (mul s n).
Proof.
  intros Hn Hlen. unfold repeat. rewrite as_ssize_t_fits by exact Hn.
  cbn [bind]. destruct (Z.ltb_spec n 1) as [Hlt|Hge].
  - unfold mul. now replace (Z.to_nat n) with 0%nat by lia.
  - destruct (Z.gtb_spec (Z.of_nat (String.length s)) (PY_SSIZE_T_MAX / n))
      as [Hgt|_]; [|reflexivity].
    exfalso.
    assert (Z.of_nat (String.length s) <= PY_SSIZE_T_MAX / n)
      by (apply Z.div_le_lower_bound; lia).
    lia.
Qed.

(** A positive count with too long a result raises. *)
Lemma repeat_too_long (s : string) (n : Z) :
  1 <= n -> PY_SSIZE_T_MAX < Z.of_nat (String.length s) * n ->
  repeat s n = inl OverflowError.
Proof.
  intros Hn Hlen. unfold repeat.
  destruct (Z_le_gt_dec n PY_SSIZE_T_MAX) as [Hle|Hgt].
  - rewrite as_ssize_t_fits by (unfold PY_SSIZE_T_MIN; lia). cbn [bind].
    destruct (Z.ltb_spec n 1) as [Hlt|_]; [lia|].
    destruct (Z.gtb_spec (Z.of_nat (String.length s)) (PY_SSIZE_T_MAX / n))
      as [_|Hle']; [reflexivity|].
    exfalso.
    assert (PY_SSIZE_T_MAX / n < Z.of_nat (String.length s))
      by (apply Z.div_lt_upper_bound; lia).
    lia.
  - rewrite as_ssize_t_outside by lia. reflexivity.
Qed.

Lemma repeat_below (s : string) (n : Z) :
  n < PY_SSIZE_T_MIN -> repeat s n = inl OverflowError.
Proof.
  intros Hn. unfold repeat. rewrite as_ssize_t_outside by lia. reflexivity.
Qed.

Lemma concat_fits (s t : string) :
  Z.of_nat (String.length s) + Z.of_nat (String.length t) <= PY_SSIZE_T_MAX ->
  CPython.concat s t = inr (s ++ t)%string.
Proof.
  intros H. unfold CPython.concat.
  destruct (Z.gtb_spec (Z.of_nat (String.length s))
              (PY_SSIZE_T_MAX - Z.of_nat (String.length t)));
    [lia | reflexivity].
Qed.

Lemma concat_too_long (s t : string) :
  PY_SSIZE_T_MAX < Z.of_nat (String.length s) + Z.of_nat (String.length t) ->
  CPython.concat s t = inl OverflowError.
Proof.
  intros H. unfold CPython.concat.
  destruct (Z.gtb_spec (Z.of_nat (String.length s))
              (PY_SSIZE_T_MAX - Z.of_nat (String.length t)));
    [reflexivity | lia].
Qed.

(** Side conditions on lengths: measure the pieces, then arithmetic. *)
Ltac sizes :=
  rewrite ?length_append, ?Nat2Z.inj_add, ?length_mul_any;
  change (String.length (MID ++ "<")) with 15%nat;
  change (String.length SINK) with 10%nat;
  change (String.length MID) with 14%nat;
  change (String.length SOURCE) with 11%nat;
  change (String.length "<") with 1%nat;
  change (String.length ">") with 1%nat;
  change (String.length "sink;") with 5%nat;
  unfold PY_SSIZE_T_MAX, PY_SSIZE_T_MIN in *;
  change (2 ^ 63) with 9223372036854775808 in *; lia.

(** With the count an index and the whole string short enough, every
    statement succeeds and the string handed to [print] is [output]. *)
Lemma script_fits (n : Z) :
  PY_SSIZE_T_MIN <= n -> 16 * n + 28 <= PY_SSIZE_T_MAX ->
  script n = inr (output n).
Proof.
  intros Hlo Hhi. unfold script.
  rewrite repeat_fits by sizes. cbn [bind].
  rewrite concat_fits by sizes. cbn [bind].
  rewrite concat_fits by sizes. cbn [bind].
  rewrite repeat_fits by sizes. cbn [bind].
  rewrite concat_fits by sizes. cbn [bind].
  rewrite concat_fits by sizes. reflexivity.
Qed.

(** Too long a string is refused by whichever statement first exceeds the
    index range. *)
Lemma script_too_long (n : Z) :
  PY_SSIZE_T_MAX < 16 * n + 28 -> script n = inl OverflowError.
Proof.
  intros Hhi. unfold script.
  destruct (Z_le_gt_dec (15 * n) PY_SSIZE_T_MAX);
    [|now rewrite repeat_too_long by sizes].
  rewrite repeat_fits by sizes. cbn [bind].
  destruct (Z_le_gt_dec (15 * n + 11) PY_SSIZE_T_MAX);
    [|now rewrite concat_too_long by sizes].
  rewrite concat_fits by sizes. cbn [bind].
  destruct (Z_le_gt_dec (15 * n + 22) PY_SSIZE_T_MAX);
    [|now rewrite concat_too_long by sizes].
  rewrite concat_fits by sizes. cbn [bind].
  rewrite repeat_fits by sizes. cbn [bind].
  destruct (Z_le_gt_dec (16 * n + 23) PY_SSIZE_T_MAX);
    [|now rewrite concat_too_long by sizes].
  rewrite concat_fits by sizes. cbn [bind].
  now rewrite concat_too_long by sizes.
Qed.

Lemma script_below (n : Z) :
  n < PY_SSIZE_T_MIN -> script n = inl OverflowError.
Proof.
  intros Hn. unfold script. now rewrite repeat_below.
Qed.

Lemma output_below_zero (n : Z) :
  n < 0 -> output n = "SinkModule<ConstModulesink;"%string.
Proof.
  intros Hn. unfold output, init, mul.
  replace (Z.to_nat n) with 0%nat by lia.
  replace (Z.to_nat (n + 1)) with 0%nat by lia.
  reflexivity.
Qed.

(** X3: a negative repetition count that is a machine index
    ([-2^63 <= n < 0]) is not an error: both repetitions come out empty
    and the script prints [SinkModule<ConstModulesink;], in which the one
    [<] of the sink is never closed.  Below [-2^63] the first repetition
    raises [OverflowError] and nothing is printed. *)
Theorem script_negative (n : Z) :
  n < 0 ->
  script n =
    (if PY_SSIZE_T_MIN <=? n
     then inr "SinkModule<ConstModulesink;"%string
     else inl OverflowError)
  /\ count_char "<" "SinkModule<ConstModulesink;" = 1%nat
  /\ count_char ">" "SinkModule<ConstModulesink;" = 0%nat
  /\ scan 0 0 "SinkModule<ConstModulesink;" = Some (1%nat, 1%nat).
Proof.
  intros Hn. split; [|repeat split].
  destruct (Z.leb_spec PY_SSIZE_T_MIN n) as [Hlo|Hlo].
  - rewrite script_fits by sizes.
    now rewrite output_below_zero.
  - now apply script_below.
Qed.

Lemma script_negative_witness :
  -3 < 0
  /\ (script (-3) =
        (if PY_SSIZE_T_MIN <=? -3
         then inr "SinkModule<ConstModulesink;"%string
         else inl OverflowError)
      /\ count_char "<" "SinkModule<ConstModulesink;" = 1%nat
      /\ count_char ">" "SinkModule<ConstModulesink;" = 0%nat
      /\ scan 0 0 "SinkModule<ConstModulesink;" = Some (1%nat, 1%nat)).
Proof.
  split; [lia | apply (script_negative (-3)); lia].
Defined.

(** The two sides of the index range, evaluated. *)
Example script_minus_three :
  script (-3) = inr "SinkModule<ConstModulesink;"%string.
Proof. reflexivity. Qed.

Example script_minus_two_to_64 : script (- 2 ^ 64) = inl OverflowError.
Proof. reflexivity. Qed.

(** X13: the script prints exactly when the repetition count is at least
    [-2^63] and [16 * n + 28], the length of the string, is at most
    [2^63 - 1]; what it then prints is [output n].  In every other case a
    repetition or a concatenation raises [OverflowError] and nothing is
    printed. *)
Theorem script_prints_output (n : Z) :
  script n =
    (if (PY_SSIZE_T_MIN <=? n) && (16 * n + 28 <=? PY_SSIZE_T_MAX)
     then inr (output n)
     else inl OverflowError).
Proof.
  destruct (Z.leb_spec PY_SSIZE_T_MIN n) as [Hlo|Hlo]; cbn [andb].
  - destruct (Z.leb_spec (16 * n + 28) PY_SSIZE_T_MAX) as [Hhi|Hhi].
    + now apply script_fits.
    + now apply script_too_long.
  - now apply script_below.
Qed.

End ScriptErrors.
